(** * Trace-context propagation core of the Next.js / OpenTelemetry example

    A shallow embedding of [src/middleware.ts] (the Context Generator and
    the Carrier formatting it performs) and of [src/util/ids.ts] (the
    Context Reader), with the properties of the specification stated and
    proved over it.

    Conventions of the embedding:
    - a [Uint8Array] is a [list byte]; its elements are bytes by type;
    - JavaScript strings are [string]s;
    - the Web Crypto random source, the console and the call of
      [NextResponse.next] are effects threaded through a [World];
    - a [Headers] object is its header list, in order, with the
      byte-case-insensitive name matching of the Fetch standard. *)

From Stdlib Require Import Strings.String Strings.Ascii Strings.Byte.
From Stdlib Require Import Lists.List NArith.NArith Arith.Arith Bool.Bool Lia.
Import ListNotations.

Local Open Scope string_scope.

(** ** JavaScript library functions used by the sources *)

Module JS.

(** The digit characters of [Number.prototype.toString] in radix 16. *)
Definition hexDigit (d : N) : ascii :=
  match d with
  | 0%N => "0" | 1%N => "1" | 2%N => "2" | 3%N => "3"
  | 4%N => "4" | 5%N => "5" | 6%N => "6" | 7%N => "7"
  | 8%N => "8" | 9%N => "9" | 10%N => "a" | 11%N => "b"
  | 12%N => "c" | 13%N => "d" | 14%N => "e" | _ => "f"
  end%char.

(** Most significant digit first, no leading zero; [fuel] bounds the
    number of digits. *)
Fixpoint toString16_digits (fuel : nat) (n : N) (acc : string) : string :=
  match fuel with
  | O => acc
  | S fuel' =>
      let acc' := String (hexDigit (n mod 16)) acc in
      if (n / 16 =? 0)%N then acc' else toString16_digits fuel' (n / 16) acc'
  end.

(** [n.toString(16)] for a non-negative integer [n]. *)
Definition Number_toString16 (n : N) : string :=
  toString16_digits (S (N.to_nat (N.log2 n))) n "".

Fixpoint repeatChar (c : ascii) (k : nat) : string :=
  match k with
  | O => ""
  | S k' => String c (repeatChar c k')
  end.

(** [s.padStart(targetLength, pad)] for a one-character [pad]. *)
Definition padStart (targetLength : nat) (pad : ascii) (s : string) : string :=
  repeatChar pad (targetLength - String.length s) ++ s.

(** [xs.join('')]. *)
Definition join_empty (xs : list string) : string := String.concat "" xs.

End JS.

(** ** [toHex]  (middleware.ts, lines 59-61) *)

Definition Uint8Array := list byte.

Definition byteHex (b : byte) : string :=
  JS.padStart 2 "0" (JS.Number_toString16 (Byte.to_N b)).

Definition toHex (buffer : Uint8Array) : string :=
  JS.join_empty (map byteHex buffer).

(** ** The Carrier grammar *)

(** A pattern is a sequence of atoms: a character class repeated a fixed
    number of times, or a literal character. A string matches when the
    atoms consume it from its first to its last character. *)
Inductive atom : Type :=
| Class (p : ascii -> bool) (count : nat)
| Lit (c : ascii).

Fixpoint consumeClass (p : ascii -> bool) (count : nat) (s : string) : option string :=
  match count with
  | O => Some s
  | S k =>
      match s with
      | String c rest => if p c then consumeClass p k rest else None
      | EmptyString => None
      end
  end.

Fixpoint matchesPattern (pat : list atom) (s : string) : bool :=
  match pat with
  | [] => match s with EmptyString => true | _ => false end
  | Class p k :: pat' =>
      match consumeClass p k s with
      | Some rest => matchesPattern pat' rest
      | None => false
      end
  | Lit c :: pat' =>
      match s with
      | String c' rest => Ascii.eqb c c' && matchesPattern pat' rest
      | EmptyString => false
      end
  end.

(** The class [[0-9a-f]]. *)
Definition isLowerHex (c : ascii) : bool :=
  let n := N_of_ascii c in
  ((48 <=? n) && (n <=? 57) || (97 <=? n) && (n <=? 102))%N.

(** [^[0-9a-f]{2}-[0-9a-f]{32}-[0-9a-f]{16}-[0-9a-f]{2}$] *)
Definition traceparentGrammar : list atom :=
  [Class isLowerHex 2; Lit "-"; Class isLowerHex 32; Lit "-";
   Class isLowerHex 16; Lit "-"; Class isLowerHex 2].

Definition matchesTraceparent (s : string) : bool :=
  matchesPattern traceparentGrammar s.

(** ** Effects: random source, console, framework call *)

(** A [Headers] object: the header list of the Fetch standard. Order and
    duplicates are kept; names match byte-case-insensitively. *)
Definition Headers := list (string * string).

Module NextRequest.
Record t : Type := { method : string; url : string; headers : Headers }.
End NextRequest.

(** The argument of [NextResponse.next], by which the response of the
    middleware is represented: the spread request and the [headers] key
    written after it. [NextResponse.next] itself is the framework's. *)
Module NextResponse.
Record t : Type := { spread : NextRequest.t; headers : Headers }.
End NextResponse.

(** Calls on the platform, in the order they are made. *)
Inductive call : Type :=
| ConsoleInfo (line : string)
| NextResponseNext (init : NextResponse.t).

(** [entropy] is what [crypto.getRandomValues] will deliver, byte after
    byte; [calls] is the history of platform calls, oldest first. *)
Record World : Type := { entropy : nat -> byte; calls : list call }.

Definition M (A : Type) : Type := World -> A * World.

Definition ret {A} (a : A) : M A := fun w => (a, w).

Definition bind {A B} (m : M A) (k : A -> M B) : M B :=
  fun w => let (a, w') := m w in k a w'.

Notation "x <- m ;; k" := (bind m (fun x => k))
  (at level 61, m at next level, right associativity).
Notation "m ;;; k" := (bind m (fun _ => k))
  (at level 61, right associativity).

(** [new Uint8Array(n)]: [n] zero bytes. *)
Definition Uint8Array_new (n : nat) : Uint8Array := repeat x00 n.

(** [crypto.getRandomValues(buffer)]: every element of the buffer is
    overwritten with a fresh random byte; the length does not change. The
    buffers of the generator (16 and 8 bytes) are within the quota of the
    call, which therefore returns. *)
Definition crypto_getRandomValues (buffer : Uint8Array) : M Uint8Array :=
  fun w =>
    let n := List.length buffer in
    (map (entropy w) (seq 0 n),
     {| entropy := fun i => entropy w (n + i); calls := calls w |}).

Definition console_info (line : string) : M unit :=
  fun w => (tt, {| entropy := entropy w; calls := (calls w ++ [ConsoleInfo line])%list |}).

Definition NextResponse_next (init : NextResponse.t) : M NextResponse.t :=
  fun w => (init, {| entropy := entropy w; calls := (calls w ++ [NextResponseNext init])%list |}).

(** ** [Headers] operations *)

Definition lowerAscii (c : ascii) : ascii :=
  let n := N_of_ascii c in
  if ((65 <=? n) && (n <=? 90))%N then ascii_of_N (n + 32) else c.

Fixpoint byteLowercase (s : string) : string :=
  match s with
  | EmptyString => EmptyString
  | String c rest => String (lowerAscii c) (byteLowercase rest)
  end.

Definition sameName (a b : string) : bool :=
  String.eqb (byteLowercase a) (byteLowercase b).

(** [new Headers(init)]: a copy of the header list. *)
Definition Headers_new (init : Headers) : Headers := init.

(** The header [nv] has the name [name]; it has another name. *)
Definition named (name : string) (nv : string * string) : bool :=
  sameName (fst nv) name.
Definition otherThan (name : string) (nv : string * string) : bool :=
  negb (sameName (fst nv) name).

Definition Headers_has (name : string) (h : Headers) : bool :=
  existsb (named name) h.

(** The Fetch standard's "set": the first header of that name takes the
    value and the others of that name are removed; without one, the header
    is appended. *)
Fixpoint setFirst (name value : string) (h : Headers) : Headers :=
  match h with
  | [] => []
  | (n, v) :: rest =>
      if sameName n name
      then (n, value) :: filter (otherThan name) rest
      else (n, v) :: setFirst name value rest
  end.

Definition Headers_set (name value : string) (h : Headers) : Headers :=
  if Headers_has name h then setFirst name value h else (h ++ [(name, value)])%list.

(** [headers.get(name)]: the values of that name joined by [", "], or
    nothing when there is none. *)
Definition Headers_get (name : string) (h : Headers) : option string :=
  match filter (named name) h with
  | [] => None
  | vs => Some (String.concat ", " (map snd vs))
  end.

(** ** [generateTraceParent]  (middleware.ts, lines 32-57) *)

Module TraceParent.
Record t : Type :=
  { traceParent : string; traceId : string; spanId : string }.
End TraceParent.

Definition generateTraceParent : M TraceParent.t :=
  let version : Uint8Array := [x00] in
  let versionHex := toHex version in
  traceId <- crypto_getRandomValues (Uint8Array_new 16) ;;
  let traceIdHex := toHex traceId in
  spanId <- crypto_getRandomValues (Uint8Array_new 8) ;;
  let spanIdHex := toHex spanId in
  let flags := "01" in
  let traceParent :=
    versionHex ++ "-" ++ traceIdHex ++ "-" ++ spanIdHex ++ "-" ++ flags in
  ret {| TraceParent.traceParent := traceParent;
         TraceParent.traceId := traceIdHex;
         TraceParent.spanId := spanIdHex |}.

(** ** [middleware]  (middleware.ts, lines 3-26) *)

Definition middleware (req : NextRequest.t) : M NextResponse.t :=
  tp <- generateTraceParent ;;
  console_info
    ("[Request log from middleware]" ++ String "009" "traceId=" ++ TraceParent.traceId tp
       ++ String "009" "spanId=" ++ TraceParent.spanId tp
       ++ String "009" "method=" ++ NextRequest.method req
       ++ String "009" "url=" ++ NextRequest.url req) ;;;
  let headers := Headers_new (NextRequest.headers req) in
  let headers := Headers_set "traceparent" (TraceParent.traceParent tp) headers in
  NextResponse_next {| NextResponse.spread := req; NextResponse.headers := headers |}.

(** The bytes the generator draws in a world: the 16 of the trace
    identifier, then the 8 of the span identifier. *)
Definition drawnTraceId (w : World) : Uint8Array := map (entropy w) (seq 0 16).
Definition drawnSpanId (w : World) : Uint8Array := map (entropy w) (seq 16 8).

(** The traceparent value of the request handed on by [middleware]. *)
Definition forwardedTraceparent (req : NextRequest.t) (w : World) : option string :=
  Headers_get "traceparent" (NextResponse.headers (fst (middleware req w))).

(** ** [getIds]  (util/ids.ts) *)

Module SpanContext.
Record t : Type := { traceId : string; spanId : string; traceFlags : N }.
End SpanContext.

Module Span.
Record t : Type := { spanContext : SpanContext.t }.
End Span.

(** The ambient execution context of [@opentelemetry/api], as far as the
    reader uses it: the span bound in it, if any. *)
Module Context.
Record t : Type := { span : option Span.t }.
End Context.

Definition trace_getSpan (ctx : Context.t) : option Span.t := Context.span ctx.

Module Ids.
Record t : Type := { traceId : string; spanId : string }.
End Ids.

(** [active] stands for [context.active()]. *)
Definition getIds (active : Context.t) : Ids.t :=
  let span := trace_getSpan active in
  let '(traceId, spanId) :=
    match option_map Span.spanContext span with
    | Some sc => (SpanContext.traceId sc, SpanContext.spanId sc)
    | None => ("null", "null")
    end in
  {| Ids.traceId := traceId; Ids.spanId := spanId |}.

(** ** The Carrier codec *)

(** The data model of a trace context: one version byte, a 16-byte trace
    identifier, an 8-byte span identifier and one flags byte. *)
Module TraceContext.
Record t : Type :=
  { version : byte; traceId : Uint8Array; spanId : Uint8Array; flags : byte }.
End TraceContext.

Definition allZero (bs : Uint8Array) : bool := forallb (Byte.eqb x00) bs.


(** The carrier formatting of [generateTraceParent] (lines 36-49), with the
    two buffers it has drawn as arguments; the version is the constant
    array [[0]] and the flags are the constant string ['01'] of the
    source. *)
Definition traceParentText (traceId spanId : Uint8Array) : string :=
  let version : Uint8Array := [x00] in
  let versionHex := toHex version in
  let traceIdHex := toHex traceId in
  let spanIdHex := toHex spanId in
  let flags := "01" in
  versionHex ++ "-" ++ traceIdHex ++ "-" ++ spanIdHex ++ "-" ++ flags.

(** The trace context the generator creates in a world: the version of
    line 36, the two buffers drawn, the flags of line 47. *)
Definition generatedContext (w : World) : TraceContext.t :=
  {| TraceContext.version := x00;
     TraceContext.traceId := drawnTraceId w;
     TraceContext.spanId := drawnSpanId w;
     TraceContext.flags := x01 |}.

Inductive DecodeError : Type := InvalidFormat.

Fixpoint splitOn (sep : ascii) (s : string) : list string :=
  match s with
  | EmptyString => [EmptyString]
  | String c rest =>
      if Ascii.eqb c sep then EmptyString :: splitOn sep rest
      else match splitOn sep rest with
           | field :: fields => String c field :: fields
           | [] => [String c EmptyString]
           end
  end.

(** The value of a hexadecimal character, of either case. *)
Definition hexValue (c : ascii) : option N :=
  let n := N_of_ascii c in
  if ((48 <=? n) && (n <=? 57))%N then Some (n - 48)%N
  else if ((97 <=? n) && (n <=? 102))%N then Some (n - 87)%N
  else if ((65 <=? n) && (n <=? 70))%N then Some (n - 55)%N
  else None.

Fixpoint parseHexBytes (s : string) : option Uint8Array :=
  match s with
  | EmptyString => Some []
  | String hi (String lo rest) =>
      match hexValue hi, hexValue lo, parseHexBytes rest with
      | Some h, Some l, Some bs =>
          option_map (fun b => b :: bs) (Byte.of_N (16 * h + l))
      | _, _, _ => None
      end
  | String _ EmptyString => None
  end.

(** Modelled from the spec: the decoder of the Carrier string, which
    belongs to the instrumentation library and is not part of the sources.
    Section 4.2: a string is parsed into a trace context, or the result is
    [InvalidFormat] when it does not have exactly four dash-separated
    fields, a field has the wrong length (2, 32, 16, 2), a field contains a
    non-hexadecimal character, the version is not the supported value 0, or
    the trace or span identifier is all zero. *)
Definition decode (s : string) : DecodeError + TraceContext.t :=
  match splitOn "-" s with
  | [v; t; sp; f] =>
      if Nat.eqb (String.length v) 2 && Nat.eqb (String.length t) 32
         && Nat.eqb (String.length sp) 16 && Nat.eqb (String.length f) 2
      then
        match parseHexBytes v, parseHexBytes t, parseHexBytes sp, parseHexBytes f with
        | Some [vb], Some tb, Some sb, Some [fb] =>
            if Byte.eqb vb x00 && negb (allZero tb) && negb (allZero sb)
            then inr {| TraceContext.version := vb; TraceContext.traceId := tb;
                        TraceContext.spanId := sb; TraceContext.flags := fb |}
            else inl InvalidFormat
        | _, _, _, _ => inl InvalidFormat
        end
      else inl InvalidFormat
  | _ => inl InvalidFormat
  end.

(** ** Definitions used to state the properties *)

(** The two characters [toHex] writes for a byte. *)
Definition hiChar (b : byte) : ascii := JS.hexDigit (Byte.to_N b / 16).
Definition loChar (b : byte) : ascii := JS.hexDigit (Byte.to_N b mod 16).

(** The template literal of the log call, with its holes as arguments. *)
Definition logLine (traceId spanId method url : string) : string :=
  "[Request log from middleware]" ++ String "009" "traceId=" ++ traceId
    ++ String "009" "spanId=" ++ spanId
    ++ String "009" "method=" ++ method
    ++ String "009" "url=" ++ url.

(** The value [middleware] returns, in closed form (lemma
    [middleware_run]). *)
Definition forwarded (req : NextRequest.t) (w : World) : NextResponse.t :=
  {| NextResponse.spread := req;
     NextResponse.headers :=
       Headers_set "traceparent" (traceParentText (drawnTraceId w) (drawnSpanId w))
         (Headers_new (NextRequest.headers req)) |}.

(** The result of the reader without a span, and with one. *)
Definition sentinel : Ids.t := {| Ids.traceId := "null"; Ids.spanId := "null" |}.

Definition idsOf (sc : SpanContext.t) : Ids.t :=
  {| Ids.traceId := SpanContext.traceId sc; Ids.spanId := SpanContext.spanId sc |}.

(** *** Concrete worlds, requests and contexts *)

(** A random source that delivers the listed bytes, then zeros. *)
Definition entropyOf (bs : list byte) : nat -> byte := fun i => nth i bs x00.

(** The identifiers of the README's sample run. *)
Definition readmeWorld : World :=
  {| entropy :=
       entropyOf [xdd; x19; xa6; x11; xe9; xec; xea; x75;
                  x86; x02; x0b; x7e; xc5; x75; x66; xd0;
                  x5b; x34; xec; x95; xe4; x59; xd3; xf7];
     calls := [] |}.

(** A random source that delivers only zero bytes. *)
Definition zeroWorld : World := {| entropy := fun _ => x00; calls := [] |}.

Definition plainRequest : NextRequest.t :=
  {| NextRequest.method := "GET";
     NextRequest.url := "http://localhost:3000/";
     NextRequest.headers := [("host", "localhost:3000"); ("accept", "*/*")] |}.

(** A request that arrives with a traceparent set upstream. *)
Definition upstreamRequest : NextRequest.t :=
  {| NextRequest.method := "GET";
     NextRequest.url := "http://localhost:3000/";
     NextRequest.headers :=
       [("host", "localhost:3000");
        ("traceparent", "00-0af7651916cd43dd8448eb211c80319c-b7ad6b7169203331-01");
        ("accept", "*/*")] |}.

Definition noSpan : Context.t := {| Context.span := None |}.

Definition contextOf (traceId spanId : string) : Context.t :=
  {| Context.span :=
       Some {| Span.spanContext :=
                 {| SpanContext.traceId := traceId;
                    SpanContext.spanId := spanId;
                    SpanContext.traceFlags := 1 |} |} |}.

(** ** The external API server  (the Express application) *)

(** The request as the handler reads it: [req.headers], the object of
    Node.js, from a header name to its value when the header came. *)
Module ExpressRequest.
Record t : Type := { headers : string -> option string }.
End ExpressRequest.

(** A template literal prints [undefined] by its name. *)
Definition templateText (value : option string) : string :=
  match value with
  | Some v => v
  | None => "undefined"
  end.

Inductive apiCall : Type :=
| ConsoleLog (line : string)
| ResSend (body : string).

(** The handler of [app.get('/')]: the calls it makes, in order. *)
Definition externalApiHandler (req : ExpressRequest.t) : list apiCall :=
  [ConsoleLog ("External API is called with traceparent on headers: "
                 ++ templateText (ExpressRequest.headers req "traceparent"));
   ResSend ""].

(** ** Definitions used to state the further properties *)

(** Every character of a string is in a class. *)
Fixpoint allChars (p : ascii -> bool) (s : string) : bool :=
  match s with
  | EmptyString => true
  | String c rest => p c && allChars p rest
  end.

Definition requestWith (traceparent : option string) : ExpressRequest.t :=
  {| ExpressRequest.headers :=
       fun key => if String.eqb key "traceparent" then traceparent else None |}.

(** * Properties *)

(** ** Hexadecimal formatting of a byte *)

Ltac by_cases_on_byte b := destruct b; reflexivity.

Example Number_toString16_samples :
  JS.Number_toString16 0 = "0" /\ JS.Number_toString16 10 = "a"
  /\ JS.Number_toString16 255 = "ff" /\ JS.Number_toString16 4096 = "1000".
Proof. repeat split. Qed.

Example toHex_sample : toHex [x00; x0f; x10; xff] = "000f10ff".
Proof. reflexivity. Qed.

Lemma byteHex_chars (b : byte) :
  byteHex b = String (hiChar b) (String (loChar b) EmptyString).
Proof. by_cases_on_byte b. Qed.

Lemma hiChar_lower (b : byte) : isLowerHex (hiChar b) = true.
Proof. by_cases_on_byte b. Qed.

Lemma loChar_lower (b : byte) : isLowerHex (loChar b) = true.
Proof. by_cases_on_byte b. Qed.

Lemma hiChar_not_dash (b : byte) : Ascii.eqb (hiChar b) "-" = false.
Proof. by_cases_on_byte b. Qed.

Lemma loChar_not_dash (b : byte) : Ascii.eqb (loChar b) "-" = false.
Proof. by_cases_on_byte b. Qed.

Lemma hexValue_pair (b : byte) :
  match hexValue (hiChar b), hexValue (loChar b) with
  | Some h, Some l => Byte.of_N (16 * h + l)
  | _, _ => None
  end = Some b.
Proof. by_cases_on_byte b. Qed.

Lemma append_empty_r (s : string) : s ++ "" = s.
Proof. induction s as [|c s IH]; simpl; [reflexivity | now rewrite IH]. Qed.

Lemma append_assoc (a b c : string) : (a ++ b) ++ c = a ++ (b ++ c).
Proof. induction a as [|x a IH]; simpl; [reflexivity | now rewrite IH]. Qed.

Lemma toHex_nil : toHex [] = "".
Proof. reflexivity. Qed.

Lemma toHex_cons (b : byte) (bs : Uint8Array) :
  toHex (b :: bs) = String (hiChar b) (String (loChar b) (toHex bs)).
Proof.
  unfold toHex, JS.join_empty. simpl map. simpl String.concat.
  rewrite byteHex_chars. destruct bs as [|b' bs]; reflexivity.
Qed.

Lemma length_toHex (bs : Uint8Array) :
  String.length (toHex bs) = 2 * List.length bs.
Proof.
  induction bs as [|b bs IH]; [reflexivity|].
  rewrite toHex_cons. simpl. rewrite IH. lia.
Qed.

(** The hexadecimal text of [n] bytes is consumed by [[0-9a-f]{2n}]. *)
Lemma consumeClass_toHex (bs : Uint8Array) (rest : string) (n : nat) :
  n = 2 * List.length bs ->
  consumeClass isLowerHex n (toHex bs ++ rest) = Some rest.
Proof.
  revert n. induction bs as [|b bs IH]; intros n ->.
  - reflexivity.
  - rewrite toHex_cons.
    replace (2 * List.length (b :: bs)) with (S (S (2 * List.length bs)))
      by (simpl; lia).
    simpl. rewrite hiChar_lower, loChar_lower. now apply IH.
Qed.

Lemma splitOn_toHex_dash (bs : Uint8Array) (rest : string) :
  splitOn "-" (toHex bs ++ String "-" rest) = toHex bs :: splitOn "-" rest.
Proof.
  induction bs as [|b bs IH].
  - reflexivity.
  - rewrite toHex_cons. cbn [append splitOn].
    rewrite hiChar_not_dash, loChar_not_dash, IH. reflexivity.
Qed.

Lemma parseHexBytes_toHex (bs : Uint8Array) : parseHexBytes (toHex bs) = Some bs.
Proof.
  induction bs as [|b bs IH]; [reflexivity|].
  rewrite toHex_cons. cbn [parseHexBytes]. rewrite IH.
  pose proof (hexValue_pair b) as H.
  destruct (hexValue (hiChar b)); [|discriminate].
  destruct (hexValue (loChar b)); [|discriminate].
  now rewrite H.
Qed.

Lemma toHex_injective (a b : Uint8Array) : toHex a = toHex b -> a = b.
Proof.
  intros H. apply (f_equal parseHexBytes) in H.
  rewrite !parseHexBytes_toHex in H. now injection H.
Qed.

(** ** The generator's draws *)

Lemma length_drawnTraceId (w : World) : List.length (drawnTraceId w) = 16.
Proof. unfold drawnTraceId. now rewrite length_map, length_seq. Qed.

Lemma length_drawnSpanId (w : World) : List.length (drawnSpanId w) = 8.
Proof. unfold drawnSpanId. now rewrite length_map, length_seq. Qed.

(** What [generateTraceParent] returns, and the world it leaves. *)
Lemma generateTraceParent_run (w : World) :
  generateTraceParent w =
    ({| TraceParent.traceParent := traceParentText (drawnTraceId w) (drawnSpanId w);
        TraceParent.traceId := toHex (drawnTraceId w);
        TraceParent.spanId := toHex (drawnSpanId w) |},
     {| entropy := fun i => entropy w (16 + (8 + i)); calls := calls w |}).
Proof. reflexivity. Qed.

Lemma matchesPattern_class p k pat s rest :
  consumeClass p k s = Some rest ->
  matchesPattern (Class p k :: pat) s = matchesPattern pat rest.
Proof. intros H. simpl. now rewrite H. Qed.

Lemma matchesPattern_lit c pat rest :
  matchesPattern (Lit c :: pat) (String c rest) = matchesPattern pat rest.
Proof. simpl. now rewrite Ascii.eqb_refl. Qed.

(** The carrier of any 16 and 8 bytes matches the grammar. *)
Lemma traceParentText_matches (traceId spanId : Uint8Array) :
  List.length traceId = 16 ->
  List.length spanId = 8 ->
  matchesTraceparent (traceParentText traceId spanId) = true.
Proof.
  intros Ht Hs. unfold matchesTraceparent, traceparentGrammar, traceParentText.
  cbv zeta.
  rewrite (matchesPattern_class _ _ _ _ _ (consumeClass_toHex [x00] _ 2 eq_refl)).
  change ("-" ++ ?s) with (String "-" s). rewrite matchesPattern_lit.
  rewrite (matchesPattern_class _ _ _ _ _
             (consumeClass_toHex _ _ 32 ltac:(now rewrite Ht))).
  change ("-" ++ ?s) with (String "-" s). rewrite matchesPattern_lit.
  rewrite (matchesPattern_class _ _ _ _ _
             (consumeClass_toHex _ _ 16 ltac:(now rewrite Hs))).
  reflexivity.
Qed.

(** ** Header lists *)

Lemma sameName_refl (n : string) : sameName n n = true.
Proof. apply String.eqb_refl. Qed.

Lemma sameName_sym (a b : string) : sameName a b = sameName b a.
Proof. apply String.eqb_sym. Qed.

Lemma sameName_other (n name name' : string) :
  sameName n name = true -> sameName name' name = false -> sameName n name' = false.
Proof.
  unfold sameName. intros H1 H2. apply String.eqb_eq in H1. rewrite H1.
  now rewrite String.eqb_sym.
Qed.

Lemma named_pair (name n v : string) : named name (n, v) = sameName n name.
Proof. reflexivity. Qed.

Lemma otherThan_pair (name n v : string) :
  otherThan name (n, v) = negb (sameName n name).
Proof. reflexivity. Qed.

Section HeadersSet.

Variables name value : string.

Lemma filter_named_others (h : Headers) :
  filter (named name) (filter (otherThan name) h) = [].
Proof.
  induction h as [|[n v] h IH]; [reflexivity|].
  cbn [filter]. rewrite otherThan_pair.
  destruct (sameName n name) eqn:E; cbn [negb filter]; [exact IH|].
  now rewrite named_pair, E.
Qed.

Lemma filter_named_setFirst (h : Headers) :
  Headers_has name h = true ->
  exists n, filter (named name) (setFirst name value h) = [(n, value)].
Proof.
  induction h as [|[n v] h IH]; [discriminate|].
  unfold Headers_has. cbn [existsb setFirst]. rewrite named_pair.
  destruct (sameName n name) eqn:E; cbn [orb filter].
  - intros _. exists n. now rewrite named_pair, E, filter_named_others.
  - intros H. rewrite named_pair, E. now apply IH.
Qed.

Lemma filter_named_absent (h : Headers) :
  Headers_has name h = false -> filter (named name) h = [].
Proof.
  induction h as [|[n v] h IH]; [reflexivity|].
  unfold Headers_has. cbn [existsb filter]. rewrite named_pair.
  destruct (sameName n name); [discriminate|]. exact IH.
Qed.

(** After [set], [get] of the same name is the value set. *)
Lemma Headers_get_set_same (h : Headers) :
  Headers_get name (Headers_set name value h) = Some value.
Proof.
  unfold Headers_get, Headers_set. fold (named name).
  destruct (Headers_has name h) eqn:E.
  - destruct (filter_named_setFirst h E) as [n ->]. reflexivity.
  - rewrite filter_app, (filter_named_absent h E). cbn [filter app].
    now rewrite named_pair, sameName_refl.
Qed.

Lemma filter_others_idem (h : Headers) :
  filter (otherThan name) (filter (otherThan name) h) = filter (otherThan name) h.
Proof.
  induction h as [|nv h IH]; [reflexivity|].
  cbn [filter]. destruct (otherThan name nv) eqn:E; cbn [filter];
    rewrite ?E, IH; reflexivity.
Qed.

(** [set] keeps every header of another name, in place. *)
Lemma filter_others_set (h : Headers) :
  filter (otherThan name) (Headers_set name value h) = filter (otherThan name) h.
Proof.
  unfold Headers_set. destruct (Headers_has name h) eqn:E.
  - clear E. induction h as [|[n v] h IH]; [reflexivity|].
    cbn [setFirst]. destruct (sameName n name) eqn:En.
    + cbn [filter]. rewrite !otherThan_pair, En.
      apply filter_others_idem.
    + cbn [filter]. rewrite !otherThan_pair, En. cbn [negb]. now f_equal.
  - rewrite filter_app. cbn [filter]. rewrite otherThan_pair, sameName_refl.
    apply app_nil_r.
Qed.

Variable name' : string.
Hypothesis different : sameName name' name = false.

Lemma filter_named'_others (h : Headers) :
  filter (named name') (filter (otherThan name) h) = filter (named name') h.
Proof.
  induction h as [|[n v] h IH]; [reflexivity|].
  cbn [filter]. rewrite otherThan_pair, named_pair.
  destruct (sameName n name) eqn:E; cbn [negb filter].
  - rewrite (sameName_other _ _ _ E different). exact IH.
  - rewrite named_pair. destruct (sameName n name'); now rewrite IH.
Qed.

(** [set] does not change what [get] returns for another name. *)
Lemma Headers_get_set_other (h : Headers) :
  Headers_get name' (Headers_set name value h) = Headers_get name' h.
Proof.
  unfold Headers_get. fold (named name').
  replace (filter (named name') (Headers_set name value h))
    with (filter (named name') h); [reflexivity|].
  rewrite <- (filter_named'_others h), <- (filter_others_set h).
  now rewrite filter_named'_others.
Qed.

End HeadersSet.

(** ** The middleware, run in a world *)

Lemma middleware_run (req : NextRequest.t) (w : World) :
  middleware req w =
    (forwarded req w,
     {| entropy := fun i => entropy w (16 + (8 + i));
        calls := (calls w ++
                  [ConsoleInfo (logLine (toHex (drawnTraceId w)) (toHex (drawnSpanId w))
                                  (NextRequest.method req) (NextRequest.url req))]) ++
                 [NextResponseNext (forwarded req w)] |})%list.
Proof. reflexivity. Qed.

Lemma forwardedTraceparent_run (req : NextRequest.t) (w : World) :
  forwardedTraceparent req w = Some (traceParentText (drawnTraceId w) (drawnSpanId w)).
Proof.
  unfold forwardedTraceparent. rewrite middleware_run. simpl fst.
  apply Headers_get_set_same.
Qed.

Example readme_traceparent :
  forwardedTraceparent plainRequest readmeWorld
  = Some "00-dd19a611e9ecea7586020b7ec57566d0-5b34ec95e459d3f7-01".
Proof. reflexivity. Qed.

(** The log format literal check of the specification. *)
Example readme_log_line :
  calls (snd (middleware plainRequest readmeWorld))
  = [ConsoleInfo "[Request log from middleware]	traceId=dd19a611e9ecea7586020b7ec57566d0	spanId=5b34ec95e459d3f7	method=GET	url=http://localhost:3000/";
     NextResponseNext (fst (middleware plainRequest readmeWorld))].
Proof. reflexivity. Qed.

(** ** The Context Generator *)

(** C1. For every request processed by the middleware, the traceparent
    header of the request handed on is set, and its value matches
    [^[0-9a-f]{2}-[0-9a-f]{32}-[0-9a-f]{16}-[0-9a-f]{2}$]: four lowercase
    hexadecimal fields of widths 2, 32, 16 and 2 joined by dashes. *)
Theorem traceparent_well_formed (req : NextRequest.t) (w : World) :
  exists v, forwardedTraceparent req w = Some v /\ matchesTraceparent v = true.
Proof.
  exists (traceParentText (drawnTraceId w) (drawnSpanId w)). split.
  - apply forwardedTraceparent_run.
  - apply traceParentText_matches; [apply length_drawnTraceId | apply length_drawnSpanId].
Qed.

(** C2, evaluated where it fails. When the random source delivers zero
    bytes, [generateTraceParent] produces the all-zero trace identifier
    and the all-zero span identifier, and the middleware hands them on:
    nothing in the generator inspects or redraws the bytes. *)
Theorem zero_entropy_gives_zero_identifiers :
  allZero (TraceContext.traceId (generatedContext zeroWorld)) = true
  /\ allZero (TraceContext.spanId (generatedContext zeroWorld)) = true
  /\ TraceParent.traceId (fst (generateTraceParent zeroWorld))
     = "00000000000000000000000000000000"
  /\ TraceParent.spanId (fst (generateTraceParent zeroWorld)) = "0000000000000000"
  /\ forwardedTraceparent plainRequest zeroWorld
     = Some "00-00000000000000000000000000000000-0000000000000000-01".
Proof. repeat split; reflexivity. Qed.

(** C3. For every inbound request, whatever its headers, the traceparent
    of the request handed on is the carrier string that
    [generateTraceParent] has just produced; it is the same for any two
    requests met in the same world, so it does not depend on an incoming
    traceparent value. *)
Theorem traceparent_always_fresh (req : NextRequest.t) (w : World) :
  forwardedTraceparent req w
  = Some (TraceParent.traceParent (fst (generateTraceParent w)))
  /\ forall req' : NextRequest.t,
       forwardedTraceparent req' w = forwardedTraceparent req w.
Proof.
  split.
  - rewrite forwardedTraceparent_run, generateTraceParent_run. reflexivity.
  - intros req'. now rewrite !forwardedTraceparent_run.
Qed.

(** C4 as stated fails: the request with an upstream traceparent leaves
    the middleware with another value. *)
Lemma incoming_traceparent_not_preserved :
  Headers_get "traceparent" (NextRequest.headers upstreamRequest)
  = Some "00-0af7651916cd43dd8448eb211c80319c-b7ad6b7169203331-01"
  /\ forwardedTraceparent upstreamRequest readmeWorld
     = Some "00-dd19a611e9ecea7586020b7ec57566d0-5b34ec95e459d3f7-01"
  /\ forwardedTraceparent upstreamRequest readmeWorld
     <> Headers_get "traceparent" (NextRequest.headers upstreamRequest).
Proof. repeat split; try reflexivity. discriminate. Qed.

(** C4, amended. For every inbound request that already carries a
    traceparent header, the middleware replaces its value by the freshly
    generated carrier string; the incoming value leaves unchanged only if
    it is that very string. *)
Theorem incoming_traceparent_overwritten
    (req : NextRequest.t) (w : World) (incoming : string) :
  Headers_get "traceparent" (NextRequest.headers req) = Some incoming ->
  forwardedTraceparent req w
  = Some (TraceParent.traceParent (fst (generateTraceParent w)))
  /\ (forwardedTraceparent req w = Some incoming
      <-> incoming = TraceParent.traceParent (fst (generateTraceParent w))).
Proof.
  intros _. rewrite forwardedTraceparent_run, generateTraceParent_run. simpl.
  split; [reflexivity|]. split; intros H; [now injection H | now subst].
Qed.

Lemma incoming_traceparent_overwritten_witness :
  Headers_get "traceparent" (NextRequest.headers upstreamRequest)
  = Some "00-0af7651916cd43dd8448eb211c80319c-b7ad6b7169203331-01"
  /\ forwardedTraceparent upstreamRequest readmeWorld
     = Some (TraceParent.traceParent (fst (generateTraceParent readmeWorld))).
Proof.
  split; [reflexivity|].
  exact (proj1 (incoming_traceparent_overwritten upstreamRequest readmeWorld
                  "00-0af7651916cd43dd8448eb211c80319c-b7ad6b7169203331-01"
                  eq_refl)).
Defined.

(** C5. For every request the middleware makes exactly one [console.info]
    call, before the call of [NextResponse.next], and nothing else; the
    line is the source tag followed by the tab-separated pairs
    [traceId=], [spanId=], [method=], [url=], where the two identifiers
    are the 32 and 16 hexadecimal characters placed in the traceparent
    header of that request. *)
Theorem middleware_logs_once_before_forwarding (req : NextRequest.t) (w : World) :
  let tid := toHex (drawnTraceId w) in
  let sid := toHex (drawnSpanId w) in
  calls (snd (middleware req w))
  = List.app (calls w)
      [ConsoleInfo
         (String.concat (String "009" "")
            ["[Request log from middleware]";
             "traceId=" ++ tid; "spanId=" ++ sid;
             "method=" ++ NextRequest.method req;
             "url=" ++ NextRequest.url req]);
       NextResponseNext (fst (middleware req w))]
  /\ forwardedTraceparent req w = Some ("00-" ++ tid ++ "-" ++ sid ++ "-01")
  /\ String.length tid = 32 /\ String.length sid = 16.
Proof.
  intros tid sid. split; [|split; [|split]].
  - rewrite middleware_run. cbn [snd fst calls]. rewrite <- app_assoc.
    reflexivity.
  - apply forwardedTraceparent_run.
  - unfold tid. now rewrite length_toHex, length_drawnTraceId.
  - unfold sid. now rewrite length_toHex, length_drawnSpanId.
Qed.

(** C9. For every inbound request, the request handed on is the original
    one with only the traceparent header changed: the headers of every
    other name are the original ones, in their order and with their
    values, none added and none removed, and [get] of any other name
    returns what it returned on the inbound request. *)
Theorem middleware_keeps_other_headers (req : NextRequest.t) (w : World) :
  let out := fst (middleware req w) in
  NextResponse.spread out = req
  /\ filter (otherThan "traceparent") (NextResponse.headers out)
     = filter (otherThan "traceparent") (NextRequest.headers req)
  /\ forall name : string,
       sameName name "traceparent" = false ->
       Headers_get name (NextResponse.headers out)
       = Headers_get name (NextRequest.headers req).
Proof.
  intros out. unfold out. rewrite middleware_run. cbn [fst].
  split; [reflexivity|]. split.
  - apply filter_others_set.
  - intros name Hname. now apply Headers_get_set_other.
Qed.

Lemma middleware_keeps_other_headers_witness :
  Headers_get "host"
    (NextResponse.headers (fst (middleware upstreamRequest readmeWorld)))
  = Headers_get "host" (NextRequest.headers upstreamRequest).
Proof.
  exact (proj2 (proj2 (middleware_keeps_other_headers upstreamRequest readmeWorld))
           "host" eq_refl).
Defined.

(** ** The Context Reader *)

(** C6. Called with no active span in the ambient context, [getIds]
    returns exactly the pair of strings ["null"], ["null"]; being a total
    function of the context, it has no failing case. *)
Theorem getIds_without_span (active : Context.t) :
  trace_getSpan active = None -> getIds active = sentinel.
Proof. unfold getIds. now intros ->. Qed.

Lemma getIds_without_span_witness :
  trace_getSpan noSpan = None /\ getIds noSpan = sentinel.
Proof. split; [reflexivity | exact (getIds_without_span noSpan eq_refl)]. Defined.

(** C10 as stated fails in its "only if": a span is present and the
    sentinel pair is returned all the same, because the span's own context
    carries the two strings ["null"]. *)
Lemma sentinel_with_span_present :
  ~ (getIds (contextOf "null" "null") = sentinel
     <-> trace_getSpan (contextOf "null" "null") = None).
Proof. intros [H _]. specialize (H eq_refl). discriminate H. Qed.

(** C10, amended. With an active span, [getIds] returns exactly the trace
    and span identifier of that span's context, whatever they are: all-zero
    identifiers come back as they are. The result is the sentinel pair
    only if the span's context itself carries the strings ["null"] and
    ["null"]. *)
Theorem getIds_with_span (active : Context.t) (sp : Span.t) :
  trace_getSpan active = Some sp ->
  getIds active = idsOf (Span.spanContext sp)
  /\ (getIds active = sentinel
      <-> SpanContext.traceId (Span.spanContext sp) = "null"
          /\ SpanContext.spanId (Span.spanContext sp) = "null").
Proof.
  unfold getIds. intros ->. cbn [option_map]. split; [reflexivity|].
  unfold sentinel. split.
  - intros H. now injection H.
  - now intros [-> ->].
Qed.

Lemma getIds_with_span_witness :
  let zeros := contextOf "00000000000000000000000000000000" "0000000000000000" in
  getIds zeros
  = {| Ids.traceId := "00000000000000000000000000000000";
       Ids.spanId := "0000000000000000" |}
  /\ getIds zeros <> sentinel.
Proof.
  intros zeros.
  destruct (getIds_with_span zeros
              {| Span.spanContext :=
                   {| SpanContext.traceId := "00000000000000000000000000000000";
                      SpanContext.spanId := "0000000000000000";
                      SpanContext.traceFlags := 1 |} |} eq_refl) as [H Hiff].
  split; [exact H|].
  intros Hs. apply Hiff in Hs. destruct Hs as [Hs _]. discriminate Hs.
Defined.

(** ** The Carrier codec *)


Lemma splitOn_traceParentText (traceId spanId : Uint8Array) :
  splitOn "-" (traceParentText traceId spanId)
  = [toHex [x00]; toHex traceId; toHex spanId; "01"].
Proof.
  unfold traceParentText. cbv zeta.
  repeat (rewrite splitOn_toHex_dash || change ("-" ++ ?s) with (String "-" s)).
  reflexivity.
Qed.

Lemma traceParentText_eq_iff (t s t' s' : Uint8Array) :
  traceParentText t s = traceParentText t' s' <-> t = t' /\ s = s'.
Proof.
  split.
  - intros E. apply (f_equal (splitOn "-")) in E.
    rewrite !splitOn_traceParentText in E. injection E as Et Es.
    split; now apply toHex_injective.
  - now intros [-> ->].
Qed.

(** The decoder on the malformed inputs of section 8: a field that is not
    hexadecimal, the empty string, an unsupported version, a truncated
    trace identifier, and all-zero identifiers. *)
Example decode_rejects_malformed :
  decode "00-xyz-1-01" = inl InvalidFormat
  /\ decode "" = inl InvalidFormat
  /\ decode "01-dd19a611e9ecea7586020b7ec57566d0-5b34ec95e459d3f7-01"
     = inl InvalidFormat
  /\ decode "00-dd19a611e9ecea7586020b7e-5b34ec95e459d3f7-01" = inl InvalidFormat
  /\ decode "00-00000000000000000000000000000000-5b34ec95e459d3f7-01"
     = inl InvalidFormat
  /\ decode "00-dd19a611e9ecea7586020b7ec57566d0-0000000000000000-01"
     = inl InvalidFormat.
Proof. repeat split. Qed.





(** * Further properties of the sources *)

(** ** [toHex] *)

Lemma allChars_toHex (buffer : Uint8Array) : allChars isLowerHex (toHex buffer) = true.
Proof.
  induction buffer as [|b bs IH]; [reflexivity|].
  rewrite toHex_cons. cbn [allChars]. now rewrite hiChar_lower, loChar_lower, IH.
Qed.

Lemma hexValue_hiChar (b : byte) : hexValue (hiChar b) = Some (Byte.to_N b / 16)%N.
Proof. by_cases_on_byte b. Qed.

Lemma hexValue_loChar (b : byte) : hexValue (loChar b) = Some (Byte.to_N b mod 16)%N.
Proof. by_cases_on_byte b. Qed.

Lemma get_toHex (buffer : Uint8Array) (i : nat) (b : byte) :
  nth_error buffer i = Some b ->
  String.get (2 * i) (toHex buffer) = Some (hiChar b)
  /\ String.get (2 * i + 1) (toHex buffer) = Some (loChar b).
Proof.
  revert i. induction buffer as [|x bs IH]; intros [|i] H;
    try discriminate H; rewrite toHex_cons.
  - injection H as ->. split; reflexivity.
  - replace (2 * S i) with (S (S (2 * i))) by lia.
    cbn [Nat.add String.get]. now apply IH.
Qed.

(** X1. [toHex] writes every byte as exactly two characters of
    [[0-9a-f]], the digit of its upper four bits first and the digit of
    its lower four bits second, so that values below 16 come with a
    leading zero: the text of [n] bytes has [2n] characters, all lowercase
    hexadecimal, and the characters at positions [2i] and [2i+1] have the
    values [b / 16] and [b mod 16] of the byte [b] at index [i]. *)
Theorem toHex_fixed_width_lowercase (buffer : Uint8Array) :
  String.length (toHex buffer) = 2 * List.length buffer
  /\ allChars isLowerHex (toHex buffer) = true
  /\ forall (i : nat) (b : byte),
       nth_error buffer i = Some b ->
       exists hi lo : ascii,
         String.get (2 * i) (toHex buffer) = Some hi
         /\ String.get (2 * i + 1) (toHex buffer) = Some lo
         /\ hexValue hi = Some (Byte.to_N b / 16)%N
         /\ hexValue lo = Some (Byte.to_N b mod 16)%N.
Proof.
  split; [apply length_toHex|]. split; [apply allChars_toHex|].
  intros i b H. destruct (get_toHex buffer i b H) as [Hhi Hlo].
  exists (hiChar b), (loChar b).
  repeat split; [exact Hhi | exact Hlo | apply hexValue_hiChar | apply hexValue_loChar].
Qed.

Lemma toHex_fixed_width_lowercase_witness :
  nth_error [x0f; x10] 0 = Some x0f
  /\ exists hi lo : ascii,
       String.get 0 (toHex [x0f; x10]) = Some hi
       /\ String.get 1 (toHex [x0f; x10]) = Some lo
       /\ hexValue hi = Some 0%N
       /\ hexValue lo = Some 15%N.
Proof.
  split; [reflexivity|].
  exact (proj2 (proj2 (toHex_fixed_width_lowercase [x0f; x10])) 0 x0f eq_refl).
Defined.

Lemma toHex_eq_iff (a b : Uint8Array) : toHex a = toHex b <-> a = b.
Proof. split; [apply toHex_injective | now intros ->]. Qed.

(** X2. [toHex] loses nothing: two buffers have the same text exactly
    when they are the same bytes, whatever their lengths. *)
Theorem toHex_distinguishes_buffers (a b : Uint8Array) :
  toHex a = toHex b <-> a = b.
Proof. apply toHex_eq_iff. Qed.

(** X3. The text of a concatenation of buffers is the concatenation of
    their texts; the empty buffer gives the empty string. *)
Theorem toHex_concatenation (a b : Uint8Array) :
  toHex (a ++ b)%list = toHex a ++ toHex b /\ toHex [] = "".
Proof.
  split; [|reflexivity].
  induction a as [|x a IH]; [reflexivity|].
  cbn [app]. rewrite !toHex_cons, IH. reflexivity.
Qed.

(** ** [generateTraceParent] *)

Lemma draws_agree (f g : nat -> byte) (start len : nat) :
  map f (seq start len) = map g (seq start len)
  <-> forall i, start <= i < start + len -> f i = g i.
Proof.
  rewrite map_ext_in_iff. split; intros H i Hi; apply H; now apply in_seq.
Qed.

(** X4. The generator returns the all-zero trace identifier exactly when
    the 16 bytes drawn for it are all zero, and the all-zero span
    identifier exactly when the 8 bytes drawn next are all zero. *)
Theorem zero_identifier_iff_zero_draw (w : World) :
  (TraceParent.traceId (fst (generateTraceParent w))
   = "00000000000000000000000000000000"
   <-> forall i, i < 16 -> entropy w i = x00)
  /\ (TraceParent.spanId (fst (generateTraceParent w)) = "0000000000000000"
      <-> forall i, 16 <= i < 24 -> entropy w i = x00).
Proof.
  rewrite generateTraceParent_run. cbn [fst TraceParent.traceId TraceParent.spanId].
  split.
  - change "00000000000000000000000000000000"
      with (toHex (map (fun _ => x00) (seq 0 16))).
    rewrite toHex_eq_iff. unfold drawnTraceId.
    rewrite draws_agree. split; intros H i Hi; apply H; lia.
  - change "0000000000000000" with (toHex (map (fun _ => x00) (seq 16 8))).
    rewrite toHex_eq_iff. unfold drawnSpanId.
    rewrite draws_agree. split; intros H i Hi; apply H; lia.
Qed.

(** X5. Each identifier is a function of its own bytes of the random
    source and loses none of them: two runs return the same trace
    identifier exactly when their first 16 bytes agree, the same span
    identifier exactly when the 8 bytes after those agree, and the same
    traceparent exactly when all 24 agree. *)
Theorem identifiers_collide_iff_draws_agree (w w' : World) :
  let r := fst (generateTraceParent w) in
  let r' := fst (generateTraceParent w') in
  (TraceParent.traceId r = TraceParent.traceId r'
   <-> forall i, i < 16 -> entropy w i = entropy w' i)
  /\ (TraceParent.spanId r = TraceParent.spanId r'
      <-> forall i, 16 <= i < 24 -> entropy w i = entropy w' i)
  /\ (TraceParent.traceParent r = TraceParent.traceParent r'
      <-> forall i, i < 24 -> entropy w i = entropy w' i).
Proof.
  intros r r'. unfold r, r'. rewrite !generateTraceParent_run.
  cbn [fst TraceParent.traceId TraceParent.spanId TraceParent.traceParent].
  rewrite traceParentText_eq_iff, !toHex_eq_iff.
  unfold drawnTraceId, drawnSpanId. rewrite !draws_agree.
  split; [|split].
  - split; intros H i Hi; apply H; lia.
  - split; intros H i Hi; apply H; lia.
  - split.
    + intros [Ht Hs] i Hi. destruct (Nat.lt_ge_cases i 16); [apply Ht | apply Hs]; lia.
    + intros H. split; intros i Hi; apply H; lia.
Qed.

(** ** [middleware] *)

Lemma filter_named_set (name value : string) (h : Headers) :
  exists n, filter (named name) (Headers_set name value h) = [(n, value)].
Proof.
  unfold Headers_set. destruct (Headers_has name h) eqn:E.
  - now apply filter_named_setFirst.
  - exists name. rewrite filter_app, (filter_named_absent name h E).
    cbn [filter app]. now rewrite named_pair, sameName_refl.
Qed.

Lemma length_filter_split (name : string) (h : Headers) :
  List.length (filter (named name) h) + List.length (filter (otherThan name) h)
  = List.length h.
Proof.
  induction h as [|[n v] h IH]; [reflexivity|].
  cbn [filter]. rewrite named_pair, otherThan_pair.
  destruct (sameName n name); cbn [negb List.length]; lia.
Qed.

(** X6. Whatever the inbound headers, also with several traceparent
    headers or with the name in another case, the headers handed on hold
    exactly one header of the name traceparent, with the generated value;
    the inbound headers of that name are all gone, so the list has one
    header more than the inbound headers of other names. *)
Theorem middleware_leaves_one_traceparent (req : NextRequest.t) (w : World) :
  let out := NextResponse.headers (fst (middleware req w)) in
  (exists n, filter (named "traceparent") out
             = [(n, TraceParent.traceParent (fst (generateTraceParent w)))])
  /\ List.length out + List.length (filter (named "traceparent") (NextRequest.headers req))
     = S (List.length (NextRequest.headers req)).
Proof.
  intros out. unfold out. rewrite middleware_run, generateTraceParent_run.
  cbn [fst forwarded NextResponse.headers TraceParent.traceParent].
  unfold Headers_new.
  destruct (filter_named_set "traceparent" (traceParentText (drawnTraceId w) (drawnSpanId w))
              (NextRequest.headers req)) as [n Hn].
  split; [now exists n|].
  rewrite <- (length_filter_split "traceparent" (Headers_set _ _ _)).
  rewrite Hn, filter_others_set.
  rewrite <- (length_filter_split "traceparent" (NextRequest.headers req)).
  cbn [List.length]. lia.
Qed.

(** X7. Two requests handled one after the other: the calls made are the
    log line and the [NextResponse.next] of the first, then those of the
    second; the second request is given the next 24 bytes of the random
    source, none of the first request's; after both, 48 bytes are
    used. *)
Theorem middleware_consecutive_requests (req1 req2 : NextRequest.t) (w : World) :
  let run1 := middleware req1 w in
  let run2 := middleware req2 (snd run1) in
  calls (snd run2)
  = List.app (calls w)
      [ConsoleInfo (logLine (toHex (map (entropy w) (seq 0 16)))
                      (toHex (map (entropy w) (seq 16 8)))
                      (NextRequest.method req1) (NextRequest.url req1));
       NextResponseNext (fst run1);
       ConsoleInfo (logLine (toHex (map (entropy w) (seq 24 16)))
                      (toHex (map (entropy w) (seq 40 8)))
                      (NextRequest.method req2) (NextRequest.url req2));
       NextResponseNext (fst run2)]
  /\ forwardedTraceparent req2 (snd run1)
     = Some ("00-" ++ toHex (map (entropy w) (seq 24 16)) ++ "-"
               ++ toHex (map (entropy w) (seq 40 8)) ++ "-01")
  /\ forall i, entropy (snd run2) i = entropy w (48 + i).
Proof.
  intros run1 run2. unfold run2, run1. split; [|split].
  - rewrite !middleware_run. cbn [snd fst calls]. rewrite <- !app_assoc.
    reflexivity.
  - rewrite forwardedTraceparent_run, middleware_run. reflexivity.
  - intros i. rewrite !middleware_run. reflexivity.
Qed.

Lemma substring_prefix (a b : string) (n : nat) :
  n = String.length a -> substring 0 n (a ++ b) = a.
Proof.
  intros ->. induction a as [|c a IH]; cbn [String.length append substring].
  - now destruct b.
  - now rewrite IH.
Qed.

Lemma substring_skip (a b : string) (k n m : nat) :
  k = String.length a -> substring (k + n) m (a ++ b) = substring n m b.
Proof.
  intros ->. induction a as [|c a IH]; [reflexivity|].
  cbn [String.length append Nat.add substring]. exact IH.
Qed.

(** X8. The log line and the header can be matched by position: the 32
    characters from offset 38 of the line are the 32 characters from
    offset 3 of the traceparent handed on (the trace identifier), and the
    16 characters from offset 78 of the line are the 16 characters from
    offset 36 of the traceparent (the span identifier), whatever the
    method and URL of the request. *)
Theorem log_line_matches_header_by_position (req : NextRequest.t) (w : World) :
  exists line value,
    calls (snd (middleware req w))
    = List.app (calls w) [ConsoleInfo line; NextResponseNext (fst (middleware req w))]
    /\ forwardedTraceparent req w = Some value
    /\ substring 38 32 line = substring 3 32 value
    /\ substring 78 16 line = substring 36 16 value
    /\ substring 3 32 value = TraceParent.traceId (fst (generateTraceParent w))
    /\ substring 36 16 value = TraceParent.spanId (fst (generateTraceParent w)).
Proof.
  pose proof (length_toHex (drawnTraceId w)) as Lt.
  pose proof (length_toHex (drawnSpanId w)) as Ls.
  rewrite length_drawnTraceId in Lt. rewrite length_drawnSpanId in Ls.
  assert (Hvt : substring 3 32 (traceParentText (drawnTraceId w) (drawnSpanId w)) = toHex (drawnTraceId w)).
  { unfold traceParentText. cbv zeta. change (toHex [x00]) with "00".
    cbn [append substring].
    now apply substring_prefix. }
  assert (Hvs : substring 36 16 (traceParentText (drawnTraceId w) (drawnSpanId w)) = toHex (drawnSpanId w)).
  { unfold traceParentText. cbv zeta. change (toHex [x00]) with "00".
    cbn [append substring].
    rewrite (substring_skip _ _ 32 1) by (now rewrite Lt).
    cbn [substring]. now apply substring_prefix. }
  exists (logLine (toHex (drawnTraceId w)) (toHex (drawnSpanId w))
            (NextRequest.method req) (NextRequest.url req)),
         (traceParentText (drawnTraceId w) (drawnSpanId w)).
  split; [|split; [|split; [|split; [|split]]]].
  - rewrite middleware_run. cbn [snd fst calls]. now rewrite <- app_assoc.
  - apply forwardedTraceparent_run.
  - rewrite Hvt. unfold logLine. cbn [append substring].
    now apply substring_prefix.
  - rewrite Hvs. unfold logLine. cbn [append substring].
    rewrite (substring_skip _ _ 32 8) by (now rewrite Lt).
    cbn [substring]. now apply substring_prefix.
  - rewrite Hvt. now rewrite generateTraceParent_run.
  - rewrite Hvs. now rewrite generateTraceParent_run.
Qed.

(** ** The external API server *)

(** X10. The handler logs one line and then sends the empty body, with or
    without a traceparent header. Two requests are logged alike exactly
    when they carry the same traceparent value, or one carries none and
    the other the value ['undefined']: a missing header is printed as
    that word. *)
Theorem externalApiHandler_log (req req' : ExpressRequest.t) :
  let received := ExpressRequest.headers req "traceparent" in
  let received' := ExpressRequest.headers req' "traceparent" in
  (exists line, externalApiHandler req = [ConsoleLog line; ResSend ""])
  /\ (externalApiHandler req = externalApiHandler req'
      <-> received = received'
          \/ (received = None /\ received' = Some "undefined")
          \/ (received = Some "undefined" /\ received' = None)).
Proof.
  intros received received'. split; [eexists; reflexivity|].
  unfold externalApiHandler. fold received received'. split.
  - intros H. injection H as H.
    destruct received as [v|], received' as [v'|]; cbn [templateText] in H;
      subst; auto.
  - intros [-> | [[-> ->] | [-> ->]]]; reflexivity.
Qed.

(** The missing header and a header that came, evaluated. *)
Example externalApiHandler_samples :
  externalApiHandler (requestWith None)
  = [ConsoleLog "External API is called with traceparent on headers: undefined";
     ResSend ""]
  /\ externalApiHandler
       (requestWith (Some "00-dd19a611e9ecea7586020b7ec57566d0-64b4b376938fc984-01"))
     = [ConsoleLog "External API is called with traceparent on headers: 00-dd19a611e9ecea7586020b7ec57566d0-64b4b376938fc984-01";
        ResSend ""].
Proof. repeat split. Qed.
